(** * Nebius chat adapter: a shallow embedding of core/llm/llms/Nebius.ts

    The adapter translates chat messages to the wire shape of an
    OpenAI-compatible endpoint, builds the request body, resolves the
    endpoint URL, and turns the response (one JSON body, or a stream of
    decoded server-sent events) into a sequence of chat deltas.

    Data decoded from the network has TypeScript type [any]; it is
    modelled by [JSValue] with JavaScript's rules for property reads,
    optional chaining, truthiness and string conversion.  Exceptions are
    explicit: fallible code returns a [Result]. *)

From Stdlib Require Import List String Ascii ZArith Lia Bool.
From Stdlib Require Import Floats.PrimFloat.
Import ListNotations.
Set Warnings "-register-all".
Open Scope string_scope.
Open Scope list_scope.

(** ** Exceptions and results *)

Module Js.

(** What a [throw] (or a rejected promise) carries. *)
Inductive Exception : Type :=
| Error (message : string)      (* throw new Error(message) *)
| TypeError                     (* raised by the language or the platform *)
| Rejected (reason : string).   (* failure of an external collaborator *)

Inductive Result (A : Type) : Type :=
| Ok (a : A)
| Throw (e : Exception).
Arguments Ok {A} a.
Arguments Throw {A} e.

Definition bind {A B : Type} (r : Result A) (k : A -> Result B) : Result B :=
  match r with
  | Ok a => k a
  | Throw e => Throw e
  end.

(** ** Values of type [any] *)

Inductive JSValue : Type :=
| JUndefined
| JNull
| JBool (b : bool)
| JNum (n : float)                         (* IEEE 754 binary64 *)
| JStr (s : string)
| JArr (items : list JSValue)
| JObj (fields : list (string * JSValue)).

(** [v === undefined || v === null] *)
Definition nullish (v : JSValue) : bool :=
  match v with
  | JUndefined | JNull => true
  | _ => false
  end.

(** ToBoolean: [undefined], [null], [false], [0], [-0], [NaN] and the
    empty string are falsy, everything else (every array and object
    included) is truthy. *)
Definition truthy (v : JSValue) : bool :=
  match v with
  | JUndefined | JNull => false
  | JBool b => b
  | JNum n => negb (PrimFloat.eqb n 0%float || PrimFloat.is_nan n)
  | JStr s => negb (String.eqb s "")
  | JArr _ | JObj _ => true
  end.

(** Own property of an object literal; a key written twice keeps the
    value listed first here. *)
Fixpoint lookup (k : string) (fields : list (string * JSValue)) : JSValue :=
  match fields with
  | [] => JUndefined
  | (k', v) :: rest => if String.eqb k k' then v else lookup k rest
  end.

(** The property names the adapter reads from decoded data.  None of them
    is a built-in property of arrays, strings, numbers or booleans, so
    reading one from such a value gives [undefined]. *)
Inductive Field : Type := f_choices | f_delta | f_content | f_message.

Definition field_name (f : Field) : string :=
  match f with
  | f_choices => "choices"
  | f_delta => "delta"
  | f_content => "content"
  | f_message => "message"
  end.

(** [v.f]: a TypeError on [undefined] and [null]. *)
Definition get (v : JSValue) (f : Field) : Result JSValue :=
  match v with
  | JUndefined | JNull => Throw TypeError
  | JObj fields => Ok (lookup (field_name f) fields)
  | _ => Ok JUndefined
  end.

(** [v[0]]: the first element of an array, the first character of a
    string, the property "0" of an object. *)
Definition get0 (v : JSValue) : Result JSValue :=
  match v with
  | JUndefined | JNull => Throw TypeError
  | JArr [] => Ok JUndefined
  | JArr (x :: _) => Ok x
  | JStr EmptyString => Ok JUndefined
  | JStr (String c _) => Ok (JStr (String c EmptyString))
  | JObj fields => Ok (lookup "0" fields)
  | _ => Ok JUndefined
  end.

(** [v?.f] and [v?.[0]]: [undefined] instead of a TypeError. *)
Definition opt_get (v : JSValue) (f : Field) : JSValue :=
  match get v f with
  | Ok x => x
  | Throw _ => JUndefined
  end.

Definition opt_get0 (v : JSValue) : JSValue :=
  match get0 v with
  | Ok x => x
  | Throw _ => JUndefined
  end.

End Js.
Export Js.

Notation "x <- r ;; k" := (bind r (fun x => k))
  (at level 61, r at next level, right associativity).

(** ** Chat messages

    Modelled from the spec: the declarations of [ChatMessage] and
    [MessagePart] live in core/index.d.ts, which is not among the sources
    at hand.  A message has a role and a content that is a plain string or
    an ordered sequence of parts; a part has a kind tag, an optional text
    and an optional image reference.  [rest] stands for whatever other own
    properties the object carries: the adapter copies them with
    [...message] and never reads them. *)

Inductive ChatMessageRole : Type := system | user | assistant | tool.

Inductive PartType : Type := T_text | T_imageUrl.

Definition type_tag (t : PartType) : string :=
  match t with
  | T_text => "text"
  | T_imageUrl => "imageUrl"
  end.

Record ImageUrl : Type := { url : string }.

Module MessagePart.
Record t : Type := {
  type : PartType;
  text : option string;          (* text?: string *)
  imageUrl : option ImageUrl     (* imageUrl?: { url: string } *)
}.
End MessagePart.

Inductive MessageContent : Type :=
| CString (s : string)
| CParts (parts : list MessagePart.t).

Module ChatMessage.
Record t : Type := {
  role : ChatMessageRole;
  content : MessageContent;
  rest : list (string * JSValue)
}.
End ChatMessage.

(** ** Wire messages: what [_convertMessage] returns *)

Module Wire.
(** [{ ...part.imageUrl, detail: "low" }] *)
Record image_ref : Type := {
  url : option string;
  detail : string
}.

(** The object [msg] built for each part of a mixed message. *)
Record part : Type := {
  type : string;
  text : option string;
  image_url : option image_ref   (* absent unless the part is an image *)
}.

Inductive content_t : Type :=
| Text (s : string)
| Parts (ps : list part).

Record message : Type := {
  role : ChatMessageRole;
  content : content_t;
  rest : list (string * JSValue)
}.
End Wire.

(** [Array.prototype.join("")] on the texts: an [undefined] entry counts
    as the empty string. *)
Definition join_texts (texts : list (option string)) : string :=
  fold_right (fun t acc => match t with Some s => (s ++ acc)%string | None => acc end)
             "" texts.

Definition is_text (item : MessagePart.t) : bool :=
  match MessagePart.type item with
  | T_text => true
  | T_imageUrl => false
  end.

Definition convert_part (part : MessagePart.t) : Wire.part :=
  let msg := {| Wire.type := type_tag (MessagePart.type part);
                Wire.text := MessagePart.text part;
                Wire.image_url := None |} in
  match MessagePart.type part with
  | T_imageUrl =>
      {| Wire.type := "image_url";
         Wire.text := Wire.text msg;
         Wire.image_url :=
           Some {| Wire.url := option_map url (MessagePart.imageUrl part);
                   Wire.detail := "low" |} |}
  | T_text => msg
  end.

Definition _convertMessage (message : ChatMessage.t) : Wire.message :=
  match ChatMessage.content message with
  | CString s =>
      {| Wire.role := ChatMessage.role message;
         Wire.content := Wire.Text s;
         Wire.rest := ChatMessage.rest message |}
  | CParts items =>
      if negb (existsb (fun item => negb (is_text item)) items) then
        {| Wire.role := ChatMessage.role message;
           Wire.content := Wire.Text (join_texts (map MessagePart.text items));
           Wire.rest := ChatMessage.rest message |}
      else
        let parts := map convert_part items in
        {| Wire.role := ChatMessage.role message;
           Wire.content := Wire.Parts parts;
           Wire.rest := ChatMessage.rest message |}
  end.

(** A wire message with string content is again a chat message. *)
Definition as_ChatMessage (w : Wire.message) : option ChatMessage.t :=
  match Wire.content w with
  | Wire.Text s =>
      Some {| ChatMessage.role := Wire.role w;
              ChatMessage.content := CString s;
              ChatMessage.rest := Wire.rest w |}
  | Wire.Parts _ => None
  end.

(** ** Request construction *)

Module Options.
(** The options bag, [Record<string, any>]; [stop] is a [string[]] when
    present. *)
Record t : Type := {
  model : JSValue;
  maxTokens : JSValue;
  temperature : JSValue;
  topP : JSValue;
  frequencyPenalty : JSValue;
  presencePenalty : JSValue;
  stream : JSValue;
  stop : option (list string)
}.
End Options.

Module Body.
Record t : Type := {
  messages : list Wire.message;
  model : JSValue;
  max_tokens : JSValue;
  temperature : JSValue;
  top_p : JSValue;
  frequency_penalty : JSValue;
  presence_penalty : JSValue;
  stream : JSValue;
  stop : option (list string)
}.
End Body.

(** The adapter's own configuration ([this]).  [maxStopWords] is a count
    and is taken in [Z]. *)
Record Nebius : Type := {
  apiBase : option string;
  apiKey : option string;
  maxStopWords : option Z
}.

(** [a ?? b] *)
Definition coalesce (a b : JSValue) : JSValue :=
  if nullish a then b else a.

(** [l.slice(0, e)] for an integer [e]: a negative [e] counts from the
    end of the array. *)
Definition slice0 {A : Type} (l : list A) (e : Z) : list A :=
  let len := Z.of_nat (List.length l) in
  let k := if (e <? 0)%Z then Z.max (len + e) 0 else Z.min e len in
  firstn (Z.to_nat k) l.

Definition _convertArgs (this : Nebius) (options : Options.t)
    (messages : list ChatMessage.t) : Body.t :=
  {| Body.messages := map _convertMessage messages;
     Body.model := Options.model options;
     Body.max_tokens := Options.maxTokens options;
     Body.temperature := Options.temperature options;
     Body.top_p := Options.topP options;
     Body.frequency_penalty := Options.frequencyPenalty options;
     Body.presence_penalty := Options.presencePenalty options;
     Body.stream := coalesce (Options.stream options) (JBool true);
     Body.stop :=
       match maxStopWords this with
       | Some n => option_map (fun s => slice0 s n) (Options.stop options)
       | None => Options.stop options
       end |}.

(** Template literal [`Bearer ${this.apiKey}`]. *)
Definition _getHeaders (this : Nebius) : list (string * string) :=
  [ ("Content-Type", "application/json");
    ("Authorization",
     ("Bearer " ++ match apiKey this with Some k => k | None => "undefined" end)%string) ].

(** ** The adapter

    The platform and the collaborators the adapter calls are not part of
    Nebius.ts; they are the variables of this section. *)

Inductive Endpoint : Type := chat_completions | completions | models.

Definition endpoint_path (endpoint : Endpoint) : string :=
  match endpoint with
  | chat_completions => "chat/completions"
  | completions => "completions"
  | models => "models"
  end.

Definition no_api_base : string :=
  "No API base URL provided. Please set the 'apiBase' option in config.json".

(** What the server sent back: the outcome of [response.json()], and the
    events [streamSse(response)] yields before it closes ([sse_end] is
    [None]) or fails ([Some e]). *)
Record Response : Type := {
  json : Result JSValue;
  sse : list JSValue;
  sse_end : option Exception
}.

Record RequestInit : Type := {
  method : string;
  headers : list (string * string);
  body : Body.t                        (* JSON.stringify(body) *)
}.

Section Adapter.

Variable URL : Type.
(** [new URL(relative, base)]; [None] when the platform rejects the base
    with a TypeError. *)
Variable new_URL : string -> string -> option URL.
(** [this.fetch], inherited from BaseLLM. *)
Variable fetch : URL -> RequestInit -> Result Response.
(** Number::toString. *)
Variable Number_toString : float -> string.

(** One run of the generator [_streamChat], driven to its end: the
    requests handed to [fetch], the values yielded in order, how it
    finished ([None]: returned; [Some e]: threw [e]), and how many
    events it took from the event stream. *)
Record Run : Type := {
  requests : list (URL * RequestInit);
  yielded : list JSValue;
  finish : option Exception;
  events_read : nat
}.

Definition halt (sent : list (URL * RequestInit)) (e : Exception) : Run :=
  {| requests := sent; yielded := []; finish := Some e; events_read := 0 |}.

Definition yield (v : JSValue) (r : Run) : Run :=
  {| requests := requests r; yielded := v :: yielded r;
     finish := finish r; events_read := events_read r |}.

Definition next_event (r : Run) : Run :=
  {| requests := requests r; yielded := yielded r;
     finish := finish r; events_read := S (events_read r) |}.

Definition _getEndpoint (this : Nebius) (endpoint : Endpoint) : Result URL :=
  let construct relative base :=
    match new_URL relative base with
    | Some u => Ok u
    | None => Throw TypeError
    end in
  match apiBase this with
  | None => Throw (Error no_api_base)
  | Some base =>
      if String.eqb base "" then Throw (Error no_api_base)
      else
        match endpoint with
        | completions => construct "chat/completions" base
        | _ => construct (endpoint_path endpoint) base
        end
  end.

(** [value.choices?.[0]?.delta?.content] *)
Definition delta_content (value : JSValue) : Result JSValue :=
  cs <- get value f_choices ;;
  Ok (opt_get (opt_get (opt_get0 cs) f_delta) f_content).

(** [value.choices[0].delta] *)
Definition first_delta (value : JSValue) : Result JSValue :=
  cs <- get value f_choices ;;
  c <- get0 cs ;;
  get c f_delta.

(** [data.choices[0].message] *)
Definition first_message (data : JSValue) : Result JSValue :=
  cs <- get data f_choices ;;
  c <- get0 cs ;;
  get c f_message.

(** The [for await] loop over the decoded events. *)
Fixpoint for_await (sent : list (URL * RequestInit)) (events : list JSValue)
    (closing : option Exception) : Run :=
  match events with
  | [] => {| requests := sent; yielded := []; finish := closing;
             events_read := 0 |}
  | value :: more =>
      next_event
        match delta_content value with
        | Throw e => halt sent e
        | Ok c =>
            if truthy c then
              match first_delta value with
              | Throw e => halt sent e
              | Ok d => yield d (for_await sent more closing)
              end
            else for_await sent more closing
        end
  end.

(** [body.stream === false] *)
Definition is_false (v : JSValue) : bool :=
  match v with
  | JBool false => true
  | _ => false
  end.

Definition _streamChat (this : Nebius) (messages : list ChatMessage.t)
    (options : Options.t) : Run :=
  let body := _convertArgs this options messages in
  match _getEndpoint this chat_completions with
  | Throw e => halt [] e
  | Ok endpoint =>
      let init := {| method := "POST"; headers := _getHeaders this;
                     body := body |} in
      let sent := [(endpoint, init)] in
      match fetch endpoint init with
      | Throw e => halt sent e
      | Ok response =>
          if is_false (Body.stream body) then
            match json response with
            | Throw e => halt sent e
            | Ok data =>
                match first_message data with
                | Throw e => halt sent e
                | Ok m => {| requests := sent; yielded := [m];
                             finish := None; events_read := 0 |}
                end
            end
          else for_await sent (sse response) (sse_end response)
      end
  end.

(** ToString, as applied by [completion += chunk.content]: an array
    joins its elements with commas, printing [null] and [undefined]
    elements as nothing. *)
Fixpoint ToString (v : JSValue) : string :=
  match v with
  | JUndefined => "undefined"
  | JNull => "null"
  | JBool true => "true"
  | JBool false => "false"
  | JNum n => Number_toString n
  | JStr s => s
  | JArr items =>
      (fix join (l : list JSValue) : string :=
         match l with
         | [] => ""
         | x :: rest =>
             let sx := if nullish x then "" else ToString x in
             match rest with
             | [] => sx
             | _ :: _ => (sx ++ "," ++ join rest)%string
             end
         end) items
  | JObj _ => "[object Object]"
  end.

(** The body of the loop of [_complete], over the chunks the generator
    yields, then the way the generator finished. *)
Fixpoint accumulate (completion : string) (chunks : list JSValue)
    (closing : option Exception) : Result string :=
  match chunks with
  | [] =>
      match closing with
      | None => Ok completion
      | Some e => Throw e
      end
  | chunk :: more =>
      c <- get chunk f_content ;;
      accumulate (completion ++ ToString c)%string more closing
  end.

Definition user_message (prompt : string) : ChatMessage.t :=
  {| ChatMessage.role := user;
     ChatMessage.content := CString prompt;
     ChatMessage.rest := [] |}.

Definition _complete (this : Nebius) (prompt : string)
    (options : Options.t) : Result string :=
  let run := _streamChat this [user_message prompt] options in
  accumulate "" (yielded run) (finish run).

End Adapter.

Arguments requests {URL} _.
Arguments yielded {URL} _.
Arguments finish {URL} _.
Arguments events_read {URL} _.
Arguments _getEndpoint {URL} new_URL this endpoint.
Arguments for_await {URL} sent events closing.
Arguments _streamChat {URL} new_URL fetch this messages options.
Arguments _complete {URL} new_URL fetch Number_toString this prompt options.
Arguments halt {URL} sent e.
Arguments yield {URL} v r.
Arguments next_event {URL} r.

(** ** The rest of the class: [_streamComplete], [listModels], the
    constructor *)

Section StreamComplete.

Variable URL : Type.
Variable new_URL : string -> string -> option URL.
Variable fetch : URL -> RequestInit -> Result Response.
(** [stripImages], from core/llm/images.js. *)
Variable stripImages : JSValue -> JSValue.

(** One run of the generator [_streamComplete], driven to its end. *)
Record TextRun : Type := {
  text_requests : list (URL * RequestInit);
  text_yielded : list JSValue;
  text_finish : option Exception
}.

(** The loop of [_streamComplete] over the chunks [_streamChat] yields:
    reading [chunk.content] throws when the chunk is [null] or
    [undefined], and the loop ends there. *)
Fixpoint strip_each (chunks : list JSValue) (closing : option Exception)
    : list JSValue * option Exception :=
  match chunks with
  | [] => ([], closing)
  | chunk :: more =>
      match get chunk f_content with
      | Throw e => ([], Some e)
      | Ok c =>
          let '(rest, fin) := strip_each more closing in
          (stripImages c :: rest, fin)
      end
  end.

Definition _streamComplete (this : Nebius) (prompt : string)
    (options : Options.t) : TextRun :=
  let run := _streamChat new_URL fetch this [user_message prompt] options in
  let '(texts, fin) := strip_each (yielded run) (finish run) in
  {| text_requests := requests run; text_yielded := texts; text_finish := fin |}.

End StreamComplete.

Arguments text_requests {URL} _.
Arguments text_yielded {URL} _.
Arguments text_finish {URL} _.
Arguments _streamComplete {URL} new_URL fetch stripImages this prompt options.

Definition NON_CHAT_MODELS : list string := [].

Definition CHAT_ONLY_MODELS : list string :=
  [ "meta-llama/Meta-Llama-3.1-70B-Instruct";
    "meta-llama/Meta-Llama-3.1-405B-Instruct";
    "Qwen/Qwen2.5-Coder-7B";
    "Qwen/Qwen2.5-Coder-7B-Instruct";
    "deepseek-ai/DeepSeek-Coder-V2-Lite-Instruct" ].

Definition listModels : list string := NON_CHAT_MODELS ++ CHAT_ONLY_MODELS.

(** Modelled from the spec: [LLMOptions] is declared in core/index.d.ts,
    which is not among the sources at hand.  It carries the configuration
    surface: base URL, API key, API version, the legacy-endpoint flag and
    the cap on the number of stop words. *)
Module LLMOptions.
Record t : Type := {
  apiBase : option string;
  apiKey : option string;
  apiVersion : JSValue;                     (* string | undefined *)
  useLegacyCompletionsEndpoint : JSValue;   (* boolean | undefined *)
  maxStopWords : option Z
}.
End LLMOptions.

(** A constructed adapter: the fields the methods read, and the two the
    constructor assigns besides. *)
Record Instance : Type := {
  self : Nebius;
  useLegacyCompletionsEndpoint : JSValue;
  apiVersion : JSValue
}.

(** [new Nebius(options)].  [BaseLLM] is the constructor of the base
    class: what [super(options)] leaves in the fields.  The initialisers
    of the fields the class declares ([useLegacyCompletionsEndpoint] and
    [maxStopWords], both [= undefined]) run when [super] returns, before
    the two assignments of the constructor body. *)
Definition constructor (BaseLLM : LLMOptions.t -> Nebius)
    (options : LLMOptions.t) : Instance :=
  let this := BaseLLM options in
  let this := {| apiBase := apiBase this; apiKey := apiKey this;
                 maxStopWords := None |} in
  {| self := this;
     useLegacyCompletionsEndpoint :=
       LLMOptions.useLegacyCompletionsEndpoint options;
     apiVersion :=
       coalesce (LLMOptions.apiVersion options) (JStr "2023-07-01-preview") |}.

(** ** Vocabulary of the specification

    The notions the specification speaks in, defined on their own so that
    the code above can be compared with them. *)

(** The text payload of a part, the empty string when it has none. *)
Definition payload (item : MessagePart.t) : string :=
  match MessagePart.text item with
  | Some s => s
  | None => ""
  end.

(** A part sequence containing only text parts. *)
Definition all_text (items : list MessagePart.t) : bool := forallb is_text items.

(** The first choice of a decoded object, its delta and the content of
    that delta; [undefined] where there is none. *)
Definition first_choice (value : JSValue) : JSValue :=
  opt_get0 (opt_get value f_choices).

Definition choice_delta (value : JSValue) : JSValue :=
  opt_get (first_choice value) f_delta.

Definition choice_content (value : JSValue) : JSValue :=
  opt_get (choice_delta value) f_content.

(** "The delta carries non-empty text content". *)
Definition carries_text (value : JSValue) : bool :=
  match choice_content value with
  | JStr s => negb (String.eqb s "")
  | _ => false
  end.

(** The deltas of the events that carry non-empty text, in order. *)
Definition text_deltas (events : list JSValue) : list JSValue :=
  map choice_delta (filter carries_text events).

(** The deltas of the events whose delta content is truthy, in order. *)
Definition truthy_deltas (events : list JSValue) : list JSValue :=
  map choice_delta (filter (fun value => truthy (choice_content value)) events).

(** The request [_streamChat] hands to [fetch]. *)
Definition chat_request (this : Nebius) (options : Options.t)
    (messages : list ChatMessage.t) : RequestInit :=
  {| method := "POST"; headers := _getHeaders this;
     body := _convertArgs this options messages |}.

(** ** A sample deployment

    A concrete platform and transport on which the adapter can be run:
    URLs are strings, a relative path is resolved against a base that ends
    in a slash by appending it, and the transport answers every request
    with one given response. *)

Definition sample_new_URL (relative base : string) : option string :=
  Some (base ++ relative)%string.

Definition sample_fetch (response : Response) (endpoint : string)
    (init : RequestInit) : Result Response :=
  Ok response.

(** The sample responses hold no number: the printer is never consulted. *)
Definition sample_Number_toString (n : float) : string := "NaN".

Definition nebius (base : option string) : Nebius :=
  {| apiBase := base; apiKey := Some "secret"; maxStopWords := None |}.

Definition studio : Nebius := nebius (Some "https://api.studio.nebius.ai/v1/").

Definition sample_options (stream : JSValue) : Options.t :=
  {| Options.model := JStr "meta-llama/Meta-Llama-3.1-70B-Instruct";
     Options.maxTokens := JUndefined;
     Options.temperature := JUndefined;
     Options.topP := JUndefined;
     Options.frequencyPenalty := JUndefined;
     Options.presencePenalty := JUndefined;
     Options.stream := stream;
     Options.stop := Some ["a"; "b"; "c"] |}.

(** [{choices: [{delta: d}]}] and [{choices: [{message: m}]}] *)
Definition delta_event (d : JSValue) : JSValue :=
  JObj [("choices", JArr [JObj [("delta", d)]])].

Definition message_body (m : JSValue) : JSValue :=
  JObj [("choices", JArr [JObj [("message", m)]])].

Definition text_delta (s : string) : JSValue := JObj [("content", JStr s)].

Definition streamed (events : list JSValue) : Response :=
  {| json := Throw (Rejected "not a JSON document");
     sse := events; sse_end := None |}.

Definition text_part (s : string) : MessagePart.t :=
  {| MessagePart.type := T_text; MessagePart.text := Some s;
     MessagePart.imageUrl := None |}.

Definition image_part (u : string) : MessagePart.t :=
  {| MessagePart.type := T_imageUrl; MessagePart.text := None;
     MessagePart.imageUrl := Some {| url := u |} |}.

Definition sample_message (c : MessageContent) : ChatMessage.t :=
  {| ChatMessage.role := user; ChatMessage.content := c;
     ChatMessage.rest := [("name", JStr "ada")] |}.

(** A delta whose content is a part sequence holding one image
    reference: well-formed content for a chat message, and no text. *)
Definition image_delta : JSValue :=
  JObj [("role", JStr "assistant");
        ("content",
         JArr [JObj [("type", JStr "imageUrl");
                     ("imageUrl", JObj [("url", JStr "data:image/png;base64,AA")])]])].

Definition hello_events : list JSValue :=
  [ delta_event (JObj [("role", JStr "assistant")]);
    delta_event (text_delta "Hel");
    delta_event (text_delta "");
    delta_event (text_delta "lo");
    JObj [("choices", JArr [])];
    delta_event (text_delta " world") ].

Definition done_message : JSValue :=
  JObj [("role", JStr "assistant"); ("content", JStr "done")].

Definition answered (data : JSValue) : Response :=
  {| json := Ok data; sse := hello_events; sse_end := None |}.

(** [stripImages] on a string is the string; a part sequence is replaced
    by a placeholder here. *)
Definition sample_stripImages (c : JSValue) : JSValue :=
  match c with
  | JArr _ => JStr ""
  | _ => c
  end.

(** A base class that copies the configuration from the options. *)
Definition sample_BaseLLM (options : LLMOptions.t) : Nebius :=
  {| apiBase := LLMOptions.apiBase options;
     apiKey := LLMOptions.apiKey options;
     maxStopWords := LLMOptions.maxStopWords options |}.

Definition failing_fetch (e : Exception) (endpoint : string)
    (init : RequestInit) : Result Response :=
  Throw e.

(** * Properties *)

(** ** Message Normalizer *)

Section Normalizer.

Implicit Types (m : ChatMessage.t) (items : list MessagePart.t).

Lemma all_text_spec items :
  all_text items = true <->
  (forall part, In part items -> MessagePart.type part = T_text).
Proof.
  unfold all_text. rewrite forallb_forall.
  split; intros H part Hin; specialize (H part Hin); unfold is_text in *;
    destruct (MessagePart.type part); congruence.
Qed.

Lemma some_non_text_all_text items :
  existsb (fun item => negb (is_text item)) items = negb (all_text items).
Proof.
  unfold all_text.
  induction items as [|item items IH]; simpl; [reflexivity|].
  rewrite IH. destruct (is_text item); reflexivity.
Qed.

Lemma concat_empty_sep (l : list string) :
  String.concat "" l = fold_right String.append "" l.
Proof.
  induction l as [|x [|y l] IH]; simpl in *.
  - reflexivity.
  - clear IH. induction x as [|c x IHx]; simpl; [reflexivity|].
    now rewrite <- IHx.
  - now rewrite IH.
Qed.

Lemma join_texts_payloads items :
  join_texts (map MessagePart.text items) = String.concat "" (map payload items).
Proof.
  rewrite concat_empty_sep. unfold join_texts, payload.
  induction items as [|item items IH]; simpl; [reflexivity|].
  rewrite IH. destruct (MessagePart.text item); reflexivity.
Qed.

Lemma convert_string m s :
  ChatMessage.content m = CString s ->
  _convertMessage m =
    {| Wire.role := ChatMessage.role m; Wire.content := Wire.Text s;
       Wire.rest := ChatMessage.rest m |}.
Proof. unfold _convertMessage. now intros ->. Qed.

Lemma convert_all_text m items :
  ChatMessage.content m = CParts items ->
  all_text items = true ->
  _convertMessage m =
    {| Wire.role := ChatMessage.role m;
       Wire.content := Wire.Text (String.concat "" (map payload items));
       Wire.rest := ChatMessage.rest m |}.
Proof.
  unfold _convertMessage. intros -> Htext.
  rewrite some_non_text_all_text, Htext. simpl.
  now rewrite join_texts_payloads.
Qed.

Lemma convert_mixed m items :
  ChatMessage.content m = CParts items ->
  all_text items = false ->
  _convertMessage m =
    {| Wire.role := ChatMessage.role m;
       Wire.content := Wire.Parts (map convert_part items);
       Wire.rest := ChatMessage.rest m |}.
Proof.
  unfold _convertMessage. intros -> Hmixed.
  now rewrite some_non_text_all_text, Hmixed.
Qed.

(** C5. A message whose content is a plain string comes back unchanged.
    A message whose content is a sequence of text parts only comes back
    with the concatenation, in order, of the text payloads as its
    content; that result is a plain-string message, and normalizing it
    again gives the same message (hence the same string). *)
Theorem convertMessage_text_only :
  (forall m s,
      ChatMessage.content m = CString s ->
      as_ChatMessage (_convertMessage m) = Some m) /\
  (forall m items,
      ChatMessage.content m = CParts items ->
      (forall part, In part items -> MessagePart.type part = T_text) ->
      Wire.content (_convertMessage m)
        = Wire.Text (String.concat "" (map payload items)) /\
      exists m',
        as_ChatMessage (_convertMessage m) = Some m' /\
        ChatMessage.content m' = CString (String.concat "" (map payload items)) /\
        _convertMessage m' = _convertMessage m).
Proof.
  split.
  - intros [r c o] s Hc. simpl in Hc. subst c. reflexivity.
  - intros m items Hc Htext. apply all_text_spec in Htext.
    rewrite (convert_all_text m items Hc Htext). split; [reflexivity|].
    eexists. split; [reflexivity|]. split; reflexivity.
Qed.

(** C6. For a message with at least one non-text part the content of the
    result is a sequence of wire parts, one per part and in the same
    order.  Each wire part carries the text of its part; a text part
    keeps the tag "text" and gets no image reference; an image part gets
    the tag "image_url" and an image reference with the url of the part
    and the detail hint "low". *)
Theorem convertMessage_mixed_media m items :
  ChatMessage.content m = CParts items ->
  (exists part, In part items /\ MessagePart.type part <> T_text) ->
  exists ps,
    Wire.content (_convertMessage m) = Wire.Parts ps /\
    List.length ps = List.length items /\
    forall i part,
      nth_error items i = Some part ->
      exists w,
        nth_error ps i = Some w /\
        Wire.text w = MessagePart.text part /\
        match MessagePart.type part with
        | T_text =>
            Wire.type w = "text" /\ Wire.image_url w = None
        | T_imageUrl =>
            Wire.type w = "image_url" /\
            Wire.image_url w =
              Some {| Wire.url := option_map url (MessagePart.imageUrl part);
                      Wire.detail := "low" |}
        end.
Proof.
  intros Hc (other & Hin & Hkind).
  assert (Hsome : all_text items = false).
  { destruct (all_text items) eqn:E; [|reflexivity].
    exfalso. apply Hkind. now apply (proj1 (all_text_spec items)). }
  rewrite (convert_mixed m items Hc Hsome). simpl.
  exists (map convert_part items). split; [reflexivity|].
  split; [apply length_map|].
  intros i part Hi. exists (convert_part part).
  split; [now apply map_nth_error|].
  unfold convert_part. destruct (MessagePart.type part); simpl; auto.
Qed.

(** C10. In each of the three branches the result has the role of the
    input and the same other properties: only the content can differ. *)
Theorem convertMessage_frame m :
  Wire.role (_convertMessage m) = ChatMessage.role m /\
  Wire.rest (_convertMessage m) = ChatMessage.rest m.
Proof.
  unfold _convertMessage.
  destruct (ChatMessage.content m) as [s|items]; simpl; [auto|].
  destruct (negb _); simpl; auto.
Qed.

End Normalizer.

(** ** Request Builder *)

Section Builder.

Variables (this : Nebius) (options : Options.t) (messages : list ChatMessage.t).

Lemma slice0_firstn {A : Type} (l : list A) (n : Z) :
  (0 <= n)%Z -> slice0 l n = firstn (Z.to_nat n) l.
Proof.
  intros Hn. unfold slice0.
  destruct (Z.ltb_spec n 0) as [Hlt|_]; [lia|].
  destruct (Z.le_ge_cases n (Z.of_nat (List.length l))) as [Hle|Hge].
  - now rewrite Z.min_l.
  - rewrite Z.min_r, Nat2Z.id by assumption.
    rewrite firstn_all. symmetry. apply firstn_all2. lia.
Qed.

(** C4. With a maximum [n] configured, the stop list of the request is
    the first [n] entries of the caller's list, in their order: when the
    list is longer than [n] it has exactly [n] entries and the rest is
    dropped, when it is not longer it is the whole list, and an absent
    list stays absent.  With no maximum configured the stop list is the
    caller's, absent or not. *)
Theorem convertArgs_stop :
  (forall n,
      maxStopWords this = Some n -> (0 <= n)%Z ->
      Body.stop (_convertArgs this options messages)
        = option_map (firstn (Z.to_nat n)) (Options.stop options) /\
      (Options.stop options = None ->
       Body.stop (_convertArgs this options messages) = None) /\
      (forall stop,
          Options.stop options = Some stop ->
          exists kept,
            Body.stop (_convertArgs this options messages) = Some kept /\
            stop = kept ++ skipn (Z.to_nat n) stop /\
            ((n < Z.of_nat (List.length stop))%Z ->
             Z.of_nat (List.length kept) = n) /\
            ((Z.of_nat (List.length stop) <= n)%Z -> kept = stop))) /\
  (maxStopWords this = None ->
   Body.stop (_convertArgs this options messages) = Options.stop options).
Proof.
  split.
  - intros n Hmax Hn. simpl. rewrite Hmax.
    assert (Heq : option_map (fun s : list string => slice0 s n) (Options.stop options)
                  = option_map (firstn (Z.to_nat n)) (Options.stop options)).
    { destruct (Options.stop options); simpl; [|reflexivity].
      now rewrite slice0_firstn. }
    rewrite Heq. split; [reflexivity|]. split.
    + now intros ->.
    + intros stop ->. simpl. eexists. split; [reflexivity|].
      split; [symmetry; apply firstn_skipn|]. split.
      * intros Hlong. rewrite length_firstn. lia.
      * intros Hshort. apply firstn_all2. lia.
  - intros Hmax. simpl. now rewrite Hmax.
Qed.

(** C7. When the caller leaves [stream] unspecified the request has
    [stream: true]; a value the caller gives, [true] or [false] or any
    other value that is not [null], is used as it is. *)
Theorem convertArgs_stream :
  (Options.stream options = JUndefined ->
   Body.stream (_convertArgs this options messages) = JBool true) /\
  (nullish (Options.stream options) = false ->
   Body.stream (_convertArgs this options messages) = Options.stream options).
Proof.
  simpl. unfold coalesce. split.
  - now intros ->.
  - now intros ->.
Qed.

End Builder.

Lemma convertMessage_text_only_witness :
  as_ChatMessage (_convertMessage (sample_message (CString "hi")))
    = Some (sample_message (CString "hi")) /\
  Wire.content
    (_convertMessage (sample_message (CParts [text_part "Hel"; text_part "lo"])))
    = Wire.Text "Hello".
Proof.
  split.
  - apply (proj1 convertMessage_text_only _ "hi"). reflexivity.
  - refine (proj1 (proj2 convertMessage_text_only
                     (sample_message (CParts [text_part "Hel"; text_part "lo"]))
                     [text_part "Hel"; text_part "lo"] eq_refl _)).
    simpl. intros part [<-|[<-|[]]]; reflexivity.
Defined.

Lemma convertMessage_mixed_media_witness :
  exists ps,
    Wire.content
      (_convertMessage
         (sample_message (CParts [text_part "look"; image_part "data:image/png;base64,AA"])))
      = Wire.Parts ps /\
    List.length ps = 2%nat.
Proof.
  destruct (convertMessage_mixed_media
              (sample_message (CParts [text_part "look"; image_part "data:image/png;base64,AA"]))
              [text_part "look"; image_part "data:image/png;base64,AA"] eq_refl)
    as (ps & Hps & Hlen & _).
  - exists (image_part "data:image/png;base64,AA"). split.
    + simpl. auto.
    + simpl. discriminate.
  - exists ps. split; [exact Hps | exact Hlen].
Defined.

Lemma convertArgs_stop_witness :
  Body.stop (_convertArgs {| apiBase := None; apiKey := None; maxStopWords := Some 2%Z |}
                          (sample_options JUndefined) [])
    = Some ["a"; "b"] /\
  Body.stop (_convertArgs studio (sample_options JUndefined) [])
    = Some ["a"; "b"; "c"].
Proof.
  split.
  - refine (proj1 (proj1 (convertArgs_stop
                            {| apiBase := None; apiKey := None; maxStopWords := Some 2%Z |}
                            (sample_options JUndefined) []) 2%Z eq_refl _)).
    lia.
  - exact (proj2 (convertArgs_stop studio (sample_options JUndefined) []) eq_refl).
Defined.

Lemma convertArgs_stream_witness :
  Body.stream (_convertArgs studio (sample_options JUndefined) []) = JBool true /\
  Body.stream (_convertArgs studio (sample_options (JBool false)) []) = JBool false.
Proof.
  split.
  - exact (proj1 (convertArgs_stream studio (sample_options JUndefined) []) eq_refl).
  - exact (proj2 (convertArgs_stream studio (sample_options (JBool false)) []) eq_refl).
Defined.

(** ** Endpoint resolution *)

Section Endpoints.

Context {URL : Type}.
Variable new_URL : string -> string -> option URL.
Variable fetch : URL -> RequestInit -> Result Response.
Variable Number_toString : float -> string.
Variable this : Nebius.

(** The base URL is set when it is a non-empty string. *)
Lemma getEndpoint_set base endpoint :
  apiBase this = Some base -> base <> "" ->
  _getEndpoint new_URL this endpoint =
    match new_URL (match endpoint with
                   | completions => "chat/completions"
                   | _ => endpoint_path endpoint
                   end) base with
    | Some u => Ok u
    | None => Throw TypeError
    end.
Proof.
  intros Hbase Hne. unfold _getEndpoint. rewrite Hbase.
  destruct (String.eqb_spec base ""); [contradiction|].
  destruct endpoint; reflexivity.
Qed.

Lemma getEndpoint_unset endpoint :
  apiBase this = None \/ apiBase this = Some "" ->
  _getEndpoint new_URL this endpoint = Throw (Error no_api_base).
Proof.
  unfold _getEndpoint. intros [-> | ->]; reflexivity.
Qed.

(** C8. Resolving the legacy "completions" operation gives what
    resolving "chat/completions" gives; with a base URL configured that
    is the path chat/completions relative to the base, and "models"
    resolves to the path models relative to the base. *)
Theorem getEndpoint_paths :
  _getEndpoint new_URL this completions
    = _getEndpoint new_URL this chat_completions /\
  (forall base,
      apiBase this = Some base -> base <> "" ->
      (forall u, new_URL "chat/completions" base = Some u ->
                 _getEndpoint new_URL this completions = Ok u /\
                 _getEndpoint new_URL this chat_completions = Ok u) /\
      (forall u, new_URL "models" base = Some u ->
                 _getEndpoint new_URL this models = Ok u)).
Proof.
  split.
  - unfold _getEndpoint. destruct (apiBase this) as [base|]; [|reflexivity].
    destruct (String.eqb base ""); reflexivity.
  - intros base Hbase Hne. split.
    + intros u Hu.
      rewrite !(getEndpoint_set base _ Hbase Hne). simpl. now rewrite Hu.
    + intros u Hu.
      rewrite (getEndpoint_set base _ Hbase Hne). simpl. now rewrite Hu.
Qed.

(** C9. With the base URL unset every endpoint resolution raises the
    configuration error, and so do the operations that resolve one:
    [_streamChat] yields nothing and hands no request to the transport,
    and [_complete] fails with the same error.  With a base URL present,
    resolution never raises the configuration error and returns the URL
    the platform constructs. *)
Theorem missing_base_is_fatal :
  (apiBase this = None ->
   (forall endpoint,
       _getEndpoint new_URL this endpoint = Throw (Error no_api_base)) /\
   (forall messages options,
       let run := _streamChat new_URL fetch this messages options in
       requests run = [] /\ yielded run = [] /\
       finish run = Some (Error no_api_base) /\ events_read run = 0%nat) /\
   (forall prompt options,
       _complete new_URL fetch Number_toString this prompt options
         = Throw (Error no_api_base))) /\
  (forall base,
      apiBase this = Some base -> base <> "" ->
      forall endpoint,
        _getEndpoint new_URL this endpoint <> Throw (Error no_api_base) /\
        (forall u,
            new_URL (match endpoint with
                     | completions => "chat/completions"
                     | _ => endpoint_path endpoint
                     end) base = Some u ->
            _getEndpoint new_URL this endpoint = Ok u)).
Proof.
  split.
  - intros Hnone.
    assert (Hend : forall endpoint,
               _getEndpoint new_URL this endpoint = Throw (Error no_api_base))
      by (intros; apply getEndpoint_unset; now left).
    split; [exact Hend|]. split.
    + intros messages options. unfold _streamChat. rewrite Hend.
      simpl. auto.
    + intros prompt options. unfold _complete, _streamChat. rewrite Hend.
      reflexivity.
  - intros base Hbase Hne endpoint.
    rewrite (getEndpoint_set base endpoint Hbase Hne). split.
    + destruct (new_URL _ base); discriminate.
    + now intros u ->.
Qed.

End Endpoints.

Lemma getEndpoint_paths_witness :
  _getEndpoint sample_new_URL studio completions
    = Ok "https://api.studio.nebius.ai/v1/chat/completions" /\
  _getEndpoint sample_new_URL studio models
    = Ok "https://api.studio.nebius.ai/v1/models".
Proof.
  destruct (proj2 (getEndpoint_paths sample_new_URL studio)
              "https://api.studio.nebius.ai/v1/" eq_refl) as [Hchat Hmodels].
  - discriminate.
  - split.
    + exact (proj1 (Hchat _ eq_refl)).
    + exact (Hmodels _ eq_refl).
Defined.

Lemma missing_base_is_fatal_witness :
  requests (_streamChat sample_new_URL (sample_fetch (streamed []))
              (nebius None) [] (sample_options JUndefined)) = [] /\
  _getEndpoint sample_new_URL studio chat_completions
    <> Throw (Error no_api_base).
Proof.
  split.
  - exact (proj1 (proj1 (proj2 (proj1
             (missing_base_is_fatal sample_new_URL (sample_fetch (streamed []))
                sample_Number_toString (nebius None)) eq_refl))
             [] (sample_options JUndefined))).
  - refine (proj1 (proj2
             (missing_base_is_fatal sample_new_URL (sample_fetch (streamed []))
                sample_Number_toString studio)
             "https://api.studio.nebius.ai/v1/" eq_refl _ chat_completions)).
    discriminate.
Defined.

(** ** Response Assembler *)

Section PropertyReads.

Lemma get_opt_get v f : nullish v = false -> get v f = Ok (opt_get v f).
Proof. unfold opt_get. destruct v; simpl; intros H; congruence. Qed.

Lemma get0_opt_get0 v : nullish v = false -> get0 v = Ok (opt_get0 v).
Proof.
  unfold opt_get0.
  destruct v as [| | |n|[|c s]|[|x l]|fields]; simpl; intros H; congruence.
Qed.

Lemma opt_get_defined v f : nullish (opt_get v f) = false -> nullish v = false.
Proof. destruct v; simpl; congruence. Qed.

Lemma opt_get0_defined v : nullish (opt_get0 v) = false -> nullish v = false.
Proof. destruct v; simpl; congruence. Qed.

Lemma truthy_defined v : truthy v = true -> nullish v = false.
Proof. destruct v; simpl; congruence. Qed.

Lemma delta_content_defined value :
  nullish value = false -> delta_content value = Ok (choice_content value).
Proof.
  intros H. unfold delta_content.
  rewrite (get_opt_get _ _ H). reflexivity.
Qed.

Lemma first_delta_defined value :
  nullish (choice_delta value) = false ->
  first_delta value = Ok (choice_delta value).
Proof.
  intros Hd. unfold first_delta.
  pose proof (opt_get_defined _ _ Hd) as Hc.
  pose proof (opt_get0_defined _ Hc) as Hcs.
  pose proof (opt_get_defined _ _ Hcs) as Hv.
  rewrite (get_opt_get _ _ Hv). simpl.
  rewrite (get0_opt_get0 _ Hcs). simpl.
  now rewrite (get_opt_get _ _ Hc).
Qed.

Lemma first_message_defined data :
  nullish (first_choice data) = false ->
  first_message data = Ok (opt_get (first_choice data) f_message).
Proof.
  intros Hc. unfold first_message.
  pose proof (opt_get0_defined _ Hc) as Hcs.
  pose proof (opt_get_defined _ _ Hcs) as Hv.
  rewrite (get_opt_get _ _ Hv). simpl.
  rewrite (get0_opt_get0 _ Hcs). simpl.
  now rewrite (get_opt_get _ _ Hc).
Qed.

End PropertyReads.

Section Assembler.

Context {URL : Type}.
Variable new_URL : string -> string -> option URL.
Variable fetch : URL -> RequestInit -> Result Response.
Variable Number_toString : float -> string.
Variable this : Nebius.

(** The loop over events none of which is [null] or [undefined]. *)
Lemma for_await_defined (sent : list (URL * RequestInit)) closing events :
  (forall value, In value events -> nullish value = false) ->
  for_await sent events closing =
    {| requests := sent; yielded := truthy_deltas events;
       finish := closing; events_read := List.length events |}.
Proof.
  unfold truthy_deltas.
  induction events as [|value more IH]; intros Hdef; [reflexivity|].
  simpl. rewrite (delta_content_defined value) by (apply Hdef; now left).
  rewrite IH by (intros v Hv; apply Hdef; now right).
  destruct (truthy (choice_content value)) eqn:Htruthy; [|reflexivity].
  rewrite first_delta_defined; [reflexivity|].
  eapply opt_get_defined, truthy_defined, Htruthy.
Qed.

(** A [null] event stops the loop with a TypeError; what was yielded
    before it stays yielded. *)
Lemma for_await_null (sent : list (URL * RequestInit)) closing before after :
  (forall value, In value before -> nullish value = false) ->
  for_await sent (before ++ JNull :: after) closing =
    {| requests := sent; yielded := truthy_deltas before;
       finish := Some TypeError;
       events_read := S (List.length before) |}.
Proof.
  unfold truthy_deltas.
  induction before as [|value more IH]; intros Hdef; [reflexivity|].
  simpl. rewrite (delta_content_defined value) by (apply Hdef; now left).
  rewrite IH by (intros v Hv; apply Hdef; now right).
  destruct (truthy (choice_content value)) eqn:Htruthy; [|reflexivity].
  rewrite first_delta_defined; [reflexivity|].
  eapply opt_get_defined, truthy_defined, Htruthy.
Qed.

Lemma text_deltas_truthy events :
  (forall value, In value events ->
     truthy (choice_content value) = true ->
     exists s, choice_content value = JStr s) ->
  truthy_deltas events = text_deltas events.
Proof.
  unfold truthy_deltas, text_deltas. intros Htext. f_equal.
  apply filter_ext_in. intros value Hin.
  unfold carries_text.
  destruct (truthy (choice_content value)) eqn:Htruthy.
  - destruct (Htext value Hin Htruthy) as [s Hs].
    rewrite Hs in *. symmetry. exact Htruthy.
  - destruct (choice_content value); simpl in *; congruence.
Qed.

Variables (messages : list ChatMessage.t) (options : Options.t).

Lemma streamChat_fetched endpoint response :
  _getEndpoint new_URL this chat_completions = Ok endpoint ->
  fetch endpoint (chat_request this options messages) = Ok response ->
  _streamChat new_URL fetch this messages options =
    let sent := [(endpoint, chat_request this options messages)] in
    if is_false (Body.stream (_convertArgs this options messages)) then
      match json response with
      | Throw e => halt sent e
      | Ok data =>
          match first_message data with
          | Throw e => halt sent e
          | Ok m => {| requests := sent; yielded := [m];
                       finish := None; events_read := 0 |}
          end
      end
    else for_await sent (sse response) (sse_end response).
Proof.
  intros Hend Hfetch. unfold _streamChat. rewrite Hend.
  unfold chat_request in Hfetch. rewrite Hfetch. reflexivity.
Qed.

(** C1. When the request is answered and the stream flag of the body is
    not [false], and no decoded event is [null] or [undefined],
    [_streamChat] reads every event and yields, in arrival order, the
    first choice's delta of exactly the events whose delta content is
    truthy; the other events yield nothing.  When the truthy contents
    are all text, these are exactly the events whose delta carries
    non-empty text. *)
Theorem streamChat_streaming endpoint response :
  _getEndpoint new_URL this chat_completions = Ok endpoint ->
  fetch endpoint (chat_request this options messages) = Ok response ->
  Body.stream (_convertArgs this options messages) <> JBool false ->
  (forall value, In value (sse response) -> nullish value = false) ->
  let run := _streamChat new_URL fetch this messages options in
  yielded run = truthy_deltas (sse response) /\
  finish run = sse_end response /\
  events_read run = List.length (sse response) /\
  ((forall value, In value (sse response) ->
      truthy (choice_content value) = true ->
      exists s, choice_content value = JStr s) ->
   yielded run = text_deltas (sse response)).
Proof.
  intros Hend Hfetch Hstream Hdef run. subst run.
  rewrite (streamChat_fetched endpoint response Hend Hfetch). cbv zeta.
  assert (Hnot : is_false (Body.stream (_convertArgs this options messages)) = false).
  { destruct (Body.stream (_convertArgs this options messages)) as [| |[|]| | | |];
      try reflexivity. now contradiction Hstream. }
  rewrite Hnot, (for_await_defined _ _ _ Hdef). simpl.
  repeat split. intros Htext. now apply text_deltas_truthy.
Qed.

(** C2. When the stream flag of the built body is [false], the request
    is answered, the response body parses as JSON and has a first
    choice, [_streamChat] yields once, the message of that first choice,
    and returns; it has issued one request and read no event. *)
Theorem streamChat_non_streaming endpoint response data :
  _getEndpoint new_URL this chat_completions = Ok endpoint ->
  fetch endpoint (chat_request this options messages) = Ok response ->
  Body.stream (_convertArgs this options messages) = JBool false ->
  json response = Ok data ->
  nullish (first_choice data) = false ->
  _streamChat new_URL fetch this messages options =
    {| requests := [(endpoint, chat_request this options messages)];
       yielded := [opt_get (first_choice data) f_message];
       finish := None;
       events_read := 0 |}.
Proof.
  intros Hend Hfetch Hstream Hjson Hchoice.
  rewrite (streamChat_fetched endpoint response Hend Hfetch). cbv zeta.
  rewrite Hstream. simpl. rewrite Hjson.
  now rewrite (first_message_defined data Hchoice).
Qed.

End Assembler.

(** ** Adapter Facade *)

Section Facade.

Context {URL : Type}.
Variable new_URL : string -> string -> option URL.
Variable fetch : URL -> RequestInit -> Result Response.
Variable Number_toString : float -> string.
Variable this : Nebius.

Lemma append_assoc (a b c : string) :
  ((a ++ b) ++ c = a ++ (b ++ c))%string.
Proof. induction a as [|x a IH]; simpl; [reflexivity | now rewrite IH]. Qed.

(** The loop of [_complete] appends the string form of each content. *)
Lemma accumulate_contents completion chunks contents closing :
  map (fun chunk => get chunk f_content) chunks = map Ok contents ->
  accumulate Number_toString completion chunks closing =
    match closing with
    | None =>
        Ok (completion
              ++ String.concat "" (map (ToString Number_toString) contents))%string
    | Some e => Throw e
    end.
Proof.
  rewrite concat_empty_sep.
  revert completion contents.
  induction chunks as [|chunk more IH]; intros completion [|c contents] Hget;
    try discriminate.
  - simpl. destruct closing; [reflexivity|].
    f_equal. clear. induction completion as [|x a IH]; simpl; congruence.
  - simpl in Hget. injection Hget as Hc Hmore.
    simpl. rewrite Hc. simpl. rewrite (IH _ contents Hmore).
    destruct closing; [reflexivity|]. now rewrite append_assoc.
Qed.

(** C3. [_complete] runs [_streamChat] on the single message
    [{ role: "user", content: prompt }].  When the contents of the
    yielded chunks are the text fragments [fragments], in yield order,
    and the sequence ends normally, the result is their concatenation;
    when the sequence ends with an error, [_complete] fails with it. *)
Theorem complete_concatenates prompt options fragments :
  let run :=
    _streamChat new_URL fetch this
      [ {| ChatMessage.role := user;
           ChatMessage.content := CString prompt;
           ChatMessage.rest := [] |} ] options in
  map (fun chunk => get chunk f_content) (yielded run)
    = map (fun s => Ok (JStr s)) fragments ->
  (finish run = None ->
   _complete new_URL fetch Number_toString this prompt options
     = Ok (String.concat "" fragments)) /\
  (forall e,
      finish run = Some e ->
      _complete new_URL fetch Number_toString this prompt options = Throw e).
Proof.
  intros run Hget. unfold _complete, user_message. fold run.
  rewrite <- (map_map JStr Ok) in Hget.
  rewrite (accumulate_contents _ _ _ _ Hget).
  rewrite map_map. simpl. rewrite map_id.
  split.
  - now intros ->.
  - now intros e ->.
Qed.

End Facade.

(** C1, as the specification words it, fails: an event whose delta content
    is a part sequence with an image and no text is yielded. *)
Lemma streamChat_yields_image_delta :
  carries_text (delta_event image_delta) = false /\
  yielded (_streamChat sample_new_URL
             (sample_fetch (streamed [delta_event image_delta]))
             studio [] (sample_options JUndefined))
    = [image_delta] /\
  yielded (_streamChat sample_new_URL
             (sample_fetch (streamed [delta_event image_delta]))
             studio [] (sample_options JUndefined))
    <> text_deltas [delta_event image_delta].
Proof.
  split; [reflexivity|]. split; [reflexivity|]. discriminate.
Qed.

Lemma streamChat_streaming_witness :
  yielded (_streamChat sample_new_URL (sample_fetch (streamed hello_events))
             studio [] (sample_options JUndefined))
    = [text_delta "Hel"; text_delta "lo"; text_delta " world"] /\
  events_read (_streamChat sample_new_URL (sample_fetch (streamed hello_events))
                 studio [] (sample_options JUndefined)) = 6%nat.
Proof.
  destruct (streamChat_streaming sample_new_URL (sample_fetch (streamed hello_events))
              studio [] (sample_options JUndefined)
              "https://api.studio.nebius.ai/v1/chat/completions"
              (streamed hello_events) eq_refl eq_refl)
    as (Hyield & _ & Hread & _).
  - discriminate.
  - simpl. intros value H.
    repeat (destruct H as [<- | H]; [reflexivity|]). destruct H.
  - split; [exact Hyield | exact Hread].
Defined.

Lemma streamChat_non_streaming_witness :
  _streamChat sample_new_URL (sample_fetch (answered (message_body done_message)))
    studio [] (sample_options (JBool false))
  = {| requests := [("https://api.studio.nebius.ai/v1/chat/completions",
                     chat_request studio (sample_options (JBool false)) [])];
       yielded := [done_message];
       finish := None;
       events_read := 0 |}.
Proof.
  apply (streamChat_non_streaming sample_new_URL
           (sample_fetch (answered (message_body done_message)))
           studio [] (sample_options (JBool false))
           "https://api.studio.nebius.ai/v1/chat/completions"
           (answered (message_body done_message))
           (message_body done_message));
    reflexivity.
Defined.

Lemma complete_concatenates_witness :
  _complete sample_new_URL (sample_fetch (streamed hello_events))
    sample_Number_toString studio "Say hello" (sample_options JUndefined)
  = Ok "Hello world".
Proof.
  apply (proj1 (complete_concatenates sample_new_URL
                  (sample_fetch (streamed hello_events)) sample_Number_toString
                  studio "Say hello" (sample_options JUndefined)
                  ["Hel"; "lo"; " world"] eq_refl)).
  reflexivity.
Defined.

(** A [null] among the decoded events ends the sequence with a TypeError
    after the deltas that came before it. *)
Example streamChat_null_event :
  let run := _streamChat sample_new_URL
               (sample_fetch (streamed [delta_event (text_delta "Hel"); JNull;
                                        delta_event (text_delta "lo")]))
               studio [] (sample_options JUndefined) in
  yielded run = [text_delta "Hel"] /\ finish run = Some TypeError /\
  events_read run = 2%nat.
Proof. repeat split. Qed.

(** With [stream: false] a body without choices is a TypeError. *)
Example streamChat_no_choices :
  let run := _streamChat sample_new_URL (sample_fetch (answered (JObj [])))
               studio [] (sample_options (JBool false)) in
  yielded run = [] /\ finish run = Some TypeError /\ events_read run = 0%nat.
Proof. repeat split. Qed.

(** [slice] counts a negative end from the back of the list. *)
Example slice0_negative_end : slice0 ["a"; "b"; "c"] (-1) = ["a"; "b"].
Proof. reflexivity. Qed.

(** An empty base URL is falsy and counts as no base URL. *)
Example getEndpoint_empty_base :
  _getEndpoint sample_new_URL (nebius (Some "")) models
    = Throw (Error no_api_base).
Proof. reflexivity. Qed.

(** * Further properties of the adapter *)

(** ** The request body and its messages *)

Section BuilderMore.

Variables (this : Nebius) (options : Options.t) (messages : list ChatMessage.t).

(** X6. The request carries one wire message per chat message, in the
    same order: the message at position [i] is the conversion of the chat
    message at position [i], whatever the adapter and the options are. *)
Theorem convertArgs_messages :
  List.length (Body.messages (_convertArgs this options messages))
    = List.length messages /\
  (forall i m,
      nth_error messages i = Some m ->
      nth_error (Body.messages (_convertArgs this options messages)) i
        = Some (_convertMessage m)) /\
  (forall this' options',
      Body.messages (_convertArgs this' options' messages)
        = Body.messages (_convertArgs this options messages)).
Proof.
  simpl. split; [apply length_map|]. split.
  - intros i m Hi. now apply map_nth_error.
  - reflexivity.
Qed.

Lemma firstn_prefix {A : Type} (k : nat) (l : list A) :
  exists dropped, l = firstn k l ++ dropped.
Proof. exists (skipn k l). symmetry. apply firstn_skipn. Qed.

(** X7. Whatever number is configured as the maximum, negative ones
    included, the stop list of the request is a prefix of the caller's
    list: entries are only dropped from the end, never reordered or
    added.  A negative maximum [-k] drops the last [k] entries (all of
    them when the list has fewer). *)
Theorem convertArgs_stop_prefix n stop :
  maxStopWords this = Some n ->
  Options.stop options = Some stop ->
  exists kept dropped,
    Body.stop (_convertArgs this options messages) = Some kept /\
    stop = kept ++ dropped /\
    ((n < 0)%Z ->
     Z.of_nat (List.length kept)
       = Z.max (Z.of_nat (List.length stop) + n) 0).
Proof.
  intros Hmax Hstop. simpl. rewrite Hmax, Hstop. simpl.
  unfold slice0.
  destruct (firstn_prefix
              (Z.to_nat (if (n <? 0)%Z
                         then Z.max (Z.of_nat (List.length stop) + n) 0
                         else Z.min n (Z.of_nat (List.length stop)))) stop)
    as [dropped Hdropped].
  eexists. exists dropped. split; [reflexivity|]. split; [exact Hdropped|].
  intros Hneg. destruct (Z.ltb_spec n 0) as [_|Hge]; [|lia].
  rewrite length_firstn. lia.
Qed.

End BuilderMore.

Lemma convertArgs_messages_witness :
  nth_error (Body.messages
               (_convertArgs studio (sample_options JUndefined)
                  [sample_message (CString "hi");
                   sample_message (CParts [text_part "a"; text_part "b"])])) 1
  = Some (_convertMessage (sample_message (CParts [text_part "a"; text_part "b"]))).
Proof.
  apply (proj1 (proj2 (convertArgs_messages studio (sample_options JUndefined)
                         [sample_message (CString "hi");
                          sample_message (CParts [text_part "a"; text_part "b"])]))).
  reflexivity.
Defined.

Lemma convertArgs_stop_prefix_witness :
  exists kept dropped,
    Body.stop (_convertArgs
                 {| apiBase := None; apiKey := None; maxStopWords := Some (-2)%Z |}
                 (sample_options JUndefined) []) = Some kept /\
    ["a"; "b"; "c"] = kept ++ dropped /\
    List.length kept = 1%nat.
Proof.
  destruct (convertArgs_stop_prefix
              {| apiBase := None; apiKey := None; maxStopWords := Some (-2)%Z |}
              (sample_options JUndefined) [] (-2)%Z ["a"; "b"; "c"]
              eq_refl eq_refl)
    as (kept & dropped & Hkept & Hsplit & Hlen).
  exists kept, dropped. split; [exact Hkept|]. split; [exact Hsplit|].
  assert (H : (-2 < 0)%Z) by lia. specialize (Hlen H). simpl in Hlen. lia.
Defined.

(** ** The shape of converted messages *)

Section NormalizerMore.

Implicit Types (m : ChatMessage.t) (items : list MessagePart.t).

Lemma convert_part_shape (part : MessagePart.t) :
  (Wire.type (convert_part part) = "text" /\
   Wire.image_url (convert_part part) = None /\
   MessagePart.type part = T_text) \/
  (Wire.type (convert_part part) = "image_url" /\
   Wire.image_url (convert_part part)
     = Some {| Wire.url := option_map url (MessagePart.imageUrl part);
               Wire.detail := "low" |} /\
   MessagePart.type part = T_imageUrl).
Proof.
  unfold convert_part. destruct (MessagePart.type part); simpl; auto.
Qed.

(** X8. The content of a converted message is a part list only when the
    message has an image part: the list is then not empty and holds a
    part tagged "image_url".  In every part of such a list the tag and
    the image reference agree: "text" and no reference, or "image_url"
    and a reference with detail "low"; the tag "imageUrl" never reaches
    the wire.  A message with an empty part sequence is sent with the
    empty string as its content. *)
Theorem convertMessage_wire_shape :
  (forall m,
      ChatMessage.content m = CParts [] ->
      Wire.content (_convertMessage m) = Wire.Text "") /\
  (forall m ps,
      Wire.content (_convertMessage m) = Wire.Parts ps ->
      (exists w, In w ps /\ Wire.type w = "image_url") /\
      (forall w,
          In w ps ->
          (Wire.type w = "text" /\ Wire.image_url w = None) \/
          (Wire.type w = "image_url" /\
           exists ref, Wire.image_url w = Some ref /\ Wire.detail ref = "low"))).
Proof.
  split.
  - intros m Hc. unfold _convertMessage. now rewrite Hc.
  - intros m ps. unfold _convertMessage.
    destruct (ChatMessage.content m) as [s|items]; [discriminate|].
    destruct (existsb (fun item => negb (is_text item)) items) eqn:Hsome;
      simpl; [|discriminate].
    intros Hps. injection Hps as <-. split.
    + apply existsb_exists in Hsome as (item & Hin & Hkind).
      exists (convert_part item). split; [now apply in_map|].
      destruct (convert_part_shape item) as [(_ & _ & Ht)|(Hw & _)];
        [|exact Hw].
      unfold is_text in Hkind. now rewrite Ht in Hkind.
    + intros w Hw. apply in_map_iff in Hw as (item & <- & _).
      destruct (convert_part_shape item) as [(Ht & Hi & _)|(Ht & Hi & _)].
      * left. auto.
      * right. split; [exact Ht|]. eexists. split; [exact Hi|reflexivity].
Qed.

End NormalizerMore.

Lemma convertMessage_wire_shape_witness :
  Wire.content (_convertMessage (sample_message (CParts []))) = Wire.Text "" /\
  exists w,
    In w (map convert_part [text_part "look"; image_part "data:image/png;base64,AA"]) /\
    Wire.type w = "image_url".
Proof.
  split.
  - exact (proj1 convertMessage_wire_shape (sample_message (CParts [])) eq_refl).
  - exact (proj1 (proj2 convertMessage_wire_shape
                    (sample_message
                       (CParts [text_part "look"; image_part "data:image/png;base64,AA"]))
                    _ eq_refl)).
Defined.

(** ** Construction *)


Example constructed_adapter_ignores_maximum :
  Body.stop
    (_convertArgs
       (self (constructor sample_BaseLLM
                {| LLMOptions.apiBase := Some "https://api.studio.nebius.ai/v1/";
                   LLMOptions.apiKey := Some "secret";
                   LLMOptions.apiVersion := JUndefined;
                   LLMOptions.useLegacyCompletionsEndpoint := JUndefined;
                   LLMOptions.maxStopWords := Some 2%Z |}))
       (sample_options JUndefined) [])
  = Some ["a"; "b"; "c"].
Proof. reflexivity. Qed.

(** ** Runs of [_streamChat] *)

Section Runs.

Context {URL : Type}.
Variable new_URL : string -> string -> option URL.
Variable fetch : URL -> RequestInit -> Result Response.
Variable Number_toString : float -> string.
Variable stripImages : JSValue -> JSValue.
Variable this : Nebius.

Lemma for_await_requests (sent : list (URL * RequestInit)) events closing :
  requests (for_await sent events closing) = sent.
Proof.
  induction events as [|value more IH]; [reflexivity|].
  simpl. destruct (delta_content value) as [c|e]; [|reflexivity].
  destruct (truthy c); [|exact IH].
  destruct (first_delta value); [exact IH | reflexivity].
Qed.

Lemma first_message_missing data :
  nullish (first_choice data) = true -> first_message data = Throw TypeError.
Proof.
  unfold first_message, first_choice. intros Hmissing.
  destruct (nullish data) eqn:Hdata.
  { destruct data; try discriminate; reflexivity. }
  rewrite (get_opt_get _ _ Hdata). simpl.
  destruct (nullish (opt_get data f_choices)) eqn:Hcs.
  { destruct (opt_get data f_choices); try discriminate; reflexivity. }
  rewrite (get0_opt_get0 _ Hcs). simpl.
  destruct (opt_get0 (opt_get data f_choices)); try discriminate; reflexivity.
Qed.

(** The loop stops at the first event that is [null] or [undefined]. *)
Lemma for_await_nullish (sent : list (URL * RequestInit)) closing before v after :
  (forall value, In value before -> nullish value = false) ->
  nullish v = true ->
  for_await sent (before ++ v :: after) closing =
    {| requests := sent; yielded := truthy_deltas before;
       finish := Some TypeError;
       events_read := S (List.length before) |}.
Proof.
  unfold truthy_deltas. intros Hdef Hv.
  induction before as [|value more IH].
  - simpl. destruct v; try discriminate; reflexivity.
  - simpl. rewrite (delta_content_defined value) by (apply Hdef; now left).
    rewrite IH by (intros x Hx; apply Hdef; now right).
    destruct (truthy (choice_content value)) eqn:Htruthy; [|reflexivity].
    rewrite first_delta_defined; [reflexivity|].
    eapply opt_get_defined, truthy_defined, Htruthy.
Qed.

Variables (messages : list ChatMessage.t) (options : Options.t).

(** X1. A run of [_streamChat] hands at most one request to the
    transport, none when endpoint resolution throws and exactly one
    otherwise.  The request is a POST to the resolved chat/completions
    URL with the body built by [_convertArgs], a JSON content type and
    the API key as bearer credential. *)
Theorem streamChat_single_request :
  let run := _streamChat new_URL fetch this messages options in
  (List.length (requests run) <= 1)%nat /\
  (forall e,
      _getEndpoint new_URL this chat_completions = Throw e ->
      requests run = []) /\
  (forall endpoint,
      _getEndpoint new_URL this chat_completions = Ok endpoint ->
      exists init,
        requests run = [(endpoint, init)] /\
        method init = "POST" /\
        body init = _convertArgs this options messages /\
        (forall key,
            apiKey this = Some key ->
            headers init = [("Content-Type", "application/json");
                            ("Authorization", ("Bearer " ++ key)%string)])).
Proof.
  assert (Hok : forall endpoint,
             _getEndpoint new_URL this chat_completions = Ok endpoint ->
             requests (_streamChat new_URL fetch this messages options)
               = [(endpoint, chat_request this options messages)]).
  { intros endpoint Hend. unfold _streamChat. rewrite Hend.
    fold (chat_request this options messages).
    destruct (fetch endpoint _) as [response|e]; [|reflexivity].
    destruct (is_false _); [|apply for_await_requests].
    destruct (json response) as [data|e]; [|reflexivity].
    destruct (first_message data); reflexivity. }
  cbv zeta. split; [|split].
  - destruct (_getEndpoint new_URL this chat_completions) as [endpoint|e] eqn:Hend.
    + rewrite (Hok endpoint eq_refl). simpl. lia.
    + unfold _streamChat. rewrite Hend. simpl. lia.
  - intros e Hend. unfold _streamChat. now rewrite Hend.
  - intros endpoint Hend. exists (chat_request this options messages).
    split; [now apply Hok|]. split; [reflexivity|]. split; [reflexivity|].
    intros key Hkey. simpl. unfold _getHeaders. now rewrite Hkey.
Qed.

(** X2. When the transport fails, [_streamChat] ends with the transport's
    error after the one request, having yielded nothing and read no
    event; [_complete] and [_streamComplete] fail with the same error. *)
Theorem transport_failure_propagates endpoint e prompt :
  _getEndpoint new_URL this chat_completions = Ok endpoint ->
  (forall init, fetch endpoint init = Throw e) ->
  _streamChat new_URL fetch this messages options
    = {| requests := [(endpoint, chat_request this options messages)];
         yielded := []; finish := Some e; events_read := 0 |} /\
  _complete new_URL fetch Number_toString this prompt options = Throw e /\
  text_yielded (_streamComplete new_URL fetch stripImages this prompt options) = [] /\
  text_finish (_streamComplete new_URL fetch stripImages this prompt options)
    = Some e.
Proof.
  intros Hend Hfetch.
  unfold _streamComplete, _complete, _streamChat. rewrite Hend, !Hfetch.
  repeat split.
Qed.

(** X3. With [stream: false], a response body that does not parse
    makes [_streamChat] end with the parser's error, and a body that
    parses but has no first choice (no [choices], an empty [choices], a
    [null] entry) makes it end with a TypeError; nothing is yielded in
    either case. *)
Theorem non_streaming_failures endpoint response :
  _getEndpoint new_URL this chat_completions = Ok endpoint ->
  fetch endpoint (chat_request this options messages) = Ok response ->
  Body.stream (_convertArgs this options messages) = JBool false ->
  (forall e,
      json response = Throw e ->
      yielded (_streamChat new_URL fetch this messages options) = [] /\
      finish (_streamChat new_URL fetch this messages options) = Some e) /\
  (forall data,
      json response = Ok data ->
      nullish (first_choice data) = true ->
      yielded (_streamChat new_URL fetch this messages options) = [] /\
      finish (_streamChat new_URL fetch this messages options) = Some TypeError).
Proof.
  intros Hend Hfetch Hstream.
  rewrite (streamChat_fetched new_URL fetch this messages options
             endpoint response Hend Hfetch). cbv zeta.
  rewrite Hstream. simpl. split.
  - intros e ->. split; reflexivity.
  - intros data -> Hmissing. rewrite (first_message_missing data Hmissing).
    split; reflexivity.
Qed.

(** X4. In streaming mode an event that is [null] or [undefined] ends the
    sequence with a TypeError: the deltas of the events before it have
    been yielded, and the events after it are not read. *)
Theorem streaming_stops_at_nullish_event endpoint response before v after :
  _getEndpoint new_URL this chat_completions = Ok endpoint ->
  fetch endpoint (chat_request this options messages) = Ok response ->
  Body.stream (_convertArgs this options messages) <> JBool false ->
  sse response = before ++ v :: after ->
  (forall value, In value before -> nullish value = false) ->
  nullish v = true ->
  let run := _streamChat new_URL fetch this messages options in
  yielded run = truthy_deltas before /\
  finish run = Some TypeError /\
  events_read run = S (List.length before).
Proof.
  intros Hend Hfetch Hstream Hsse Hdef Hv run. subst run.
  rewrite (streamChat_fetched new_URL fetch this messages options
             endpoint response Hend Hfetch). cbv zeta.
  assert (Hnot : is_false (Body.stream (_convertArgs this options messages)) = false).
  { destruct (Body.stream (_convertArgs this options messages)) as [| |[|]| | | |];
      try reflexivity. now contradiction Hstream. }
  rewrite Hnot, Hsse, (for_await_nullish _ _ _ _ _ Hdef Hv). simpl. auto.
Qed.

(** X5. The non-streaming path is taken exactly when the caller passes
    [stream: false]: only then is the flag of the request body [false].
    On that path no event is ever read and at most one item is yielded,
    whatever the transport answers. *)
Theorem non_streaming_only_on_false :
  (Body.stream (_convertArgs this options messages) = JBool false
   <-> Options.stream options = JBool false) /\
  (Options.stream options = JBool false ->
   events_read (_streamChat new_URL fetch this messages options) = 0%nat /\
   (List.length (yielded (_streamChat new_URL fetch this messages options)) <= 1)%nat).
Proof.
  split.
  - simpl. unfold coalesce.
    destruct (Options.stream options) as [| |[|]| | | |]; simpl;
      split; congruence.
  - intros Hfalse. unfold _streamChat.
    destruct (_getEndpoint new_URL this chat_completions) as [endpoint|e];
      [|simpl; split; [reflexivity | lia]].
    destruct (fetch endpoint _) as [response|e];
      [|simpl; split; [reflexivity | lia]].
    simpl Body.stream. rewrite Hfalse. simpl.
    destruct (json response) as [data|e]; [|simpl; split; [reflexivity | lia]].
    destruct (first_message data); simpl; split; (reflexivity || lia).
Qed.

End Runs.

(** ** What the event loop guarantees for every stream *)

Section Streams.

Context {URL : Type}.
Variable new_URL : string -> string -> option URL.
Variable fetch : URL -> RequestInit -> Result Response.
Variable this : Nebius.

Lemma first_delta_content value d c :
  delta_content value = Ok c -> truthy c = true -> first_delta value = Ok d ->
  get d f_content = Ok c.
Proof.
  intros Hc Htruthy Hd.
  destruct (nullish value) eqn:Hvalue.
  { destruct value; try discriminate. }
  rewrite (delta_content_defined value Hvalue) in Hc. injection Hc as <-.
  pose proof (opt_get_defined _ _ (truthy_defined _ Htruthy)) as Hdelta.
  rewrite (first_delta_defined value Hdelta) in Hd. injection Hd as <-.
  now rewrite (get_opt_get _ _ Hdelta).
Qed.

(** X9. For every sequence of events, well-formed or not, each chunk the
    loop yields is an object whose [content] reads without error and is
    truthy; the loop yields at most one chunk per event read and reads no
    more events than the stream holds. *)
Theorem for_await_chunks (sent : list (URL * RequestInit)) events closing :
  let run := for_await sent events closing in
  Forall (fun chunk => exists c, get chunk f_content = Ok c /\ truthy c = true)
         (yielded run) /\
  (List.length (yielded run) <= events_read run)%nat /\
  (events_read run <= List.length events)%nat.
Proof.
  induction events as [|value more IH]; simpl.
  - split; [constructor | split; lia].
  - destruct IH as (Hall & Hlen & Hread).
    destruct (delta_content value) as [c|e] eqn:Hc; simpl;
      [|split; [constructor | split; lia]].
    destruct (truthy c) eqn:Htruthy; simpl; [|split; [exact Hall | split; lia]].
    destruct (first_delta value) as [d|e] eqn:Hd; simpl;
      [|split; [constructor | split; lia]].
    split; [|split; lia].
    constructor; [|exact Hall].
    exists c. split; [|exact Htruthy].
    exact (first_delta_content value d c Hc Htruthy Hd).
Qed.

(** X10. Receiving more events never takes back a delta: what the loop
    yields on a stream that stopped after [before] is a prefix of what it
    yields on any longer stream [before ++ after]. *)
Theorem for_await_incremental (sent : list (URL * RequestInit))
    before after closing :
  exists more,
    yielded (for_await sent (before ++ after) closing)
      = yielded (for_await sent before None) ++ more.
Proof.
  induction before as [|value rest IH]; simpl.
  - eexists. reflexivity.
  - destruct IH as [more IH].
    destruct (delta_content value) as [c|e]; simpl; [|now exists []].
    destruct (truthy c); simpl; [|now exists more].
    destruct (first_delta value); simpl; [|now exists []].
    exists more. now rewrite IH.
Qed.


Lemma strip_each_contents stripImages chunks contents closing :
  map (fun chunk => get chunk f_content) chunks = map Ok contents ->
  strip_each stripImages chunks closing = (map stripImages contents, closing).
Proof.
  revert contents.
  induction chunks as [|chunk more IH]; intros [|c contents] Hget;
    try discriminate; [reflexivity|].
  simpl in Hget. injection Hget as Hc Hmore.
  simpl. rewrite Hc, (IH contents Hmore). reflexivity.
Qed.

Variable Number_toString : float -> string.
Variable stripImages : JSValue -> JSValue.
Variables (prompt : string) (options : Options.t).



(** X13. When [stripImages] leaves strings as they are and the chunks
    carry the text fragments [fragments], [_streamComplete] yields these
    fragments in order, and their concatenation is what [_complete]
    returns for a sequence that ends normally. *)
Theorem streamComplete_agrees_with_complete fragments :
  (forall s, stripImages (JStr s) = JStr s) ->
  let run := _streamChat new_URL fetch this [user_message prompt] options in
  map (fun chunk => get chunk f_content) (yielded run)
    = map (fun s => Ok (JStr s)) fragments ->
  text_yielded (_streamComplete new_URL fetch stripImages this prompt options)
    = map JStr fragments /\
  text_finish (_streamComplete new_URL fetch stripImages this prompt options)
    = finish run /\
  text_requests (_streamComplete new_URL fetch stripImages this prompt options)
    = requests run /\
  (finish run = None ->
   _complete new_URL fetch Number_toString this prompt options
     = Ok (String.concat "" fragments)).
Proof.
  intros Hstrip run Hget. unfold _streamComplete, _complete. fold run.
  rewrite <- (map_map JStr Ok) in Hget.
  rewrite (strip_each_contents stripImages _ _ _ Hget).
  rewrite (accumulate_contents Number_toString _ _ _ _ Hget).
  rewrite !map_map. simpl. rewrite map_id.
  split; [|split; [reflexivity | split; [reflexivity | now intros ->]]].
  apply map_ext. intros s. apply Hstrip.
Qed.

End Streams.

Lemma streamChat_single_request_witness :
  exists init,
    requests (_streamChat sample_new_URL (sample_fetch (streamed hello_events))
                studio [] (sample_options JUndefined))
      = [("https://api.studio.nebius.ai/v1/chat/completions", init)] /\
    headers init = [("Content-Type", "application/json");
                    ("Authorization", "Bearer secret")].
Proof.
  destruct (proj2 (proj2 (streamChat_single_request sample_new_URL
                            (sample_fetch (streamed hello_events))
                            studio [] (sample_options JUndefined)))
              "https://api.studio.nebius.ai/v1/chat/completions" eq_refl)
    as (init & Hreq & _ & _ & Hheaders).
  exists init. split; [exact Hreq|]. exact (Hheaders "secret" eq_refl).
Defined.

Lemma transport_failure_propagates_witness :
  _complete sample_new_URL (failing_fetch (Rejected "connection refused"))
    sample_Number_toString studio "Say hello" (sample_options JUndefined)
  = Throw (Rejected "connection refused").
Proof.
  refine (proj1 (proj2 (transport_failure_propagates sample_new_URL
                          (failing_fetch (Rejected "connection refused"))
                          sample_Number_toString sample_stripImages studio
                          [] (sample_options JUndefined)
                          "https://api.studio.nebius.ai/v1/chat/completions"
                          (Rejected "connection refused") "Say hello"
                          eq_refl _))).
  reflexivity.
Defined.

Lemma non_streaming_failures_witness :
  finish (_streamChat sample_new_URL
            (sample_fetch (answered (JObj [("choices", JArr [])])))
            studio [] (sample_options (JBool false)))
  = Some TypeError.
Proof.
  refine (proj2 (proj2 (non_streaming_failures sample_new_URL
                          (sample_fetch (answered (JObj [("choices", JArr [])])))
                          studio [] (sample_options (JBool false))
                          "https://api.studio.nebius.ai/v1/chat/completions"
                          (answered (JObj [("choices", JArr [])]))
                          eq_refl eq_refl eq_refl)
                   (JObj [("choices", JArr [])]) eq_refl eq_refl)).
Defined.

Lemma streaming_stops_at_nullish_event_witness :
  let run := _streamChat sample_new_URL
               (sample_fetch (streamed [delta_event (text_delta "Hel"); JNull;
                                        delta_event (text_delta "lo")]))
               studio [] (sample_options JUndefined) in
  yielded run = [text_delta "Hel"] /\ finish run = Some TypeError /\
  events_read run = 2%nat.
Proof.
  refine (streaming_stops_at_nullish_event sample_new_URL
            (sample_fetch (streamed [delta_event (text_delta "Hel"); JNull;
                                     delta_event (text_delta "lo")]))
            studio [] (sample_options JUndefined)
            "https://api.studio.nebius.ai/v1/chat/completions"
            (streamed [delta_event (text_delta "Hel"); JNull;
                       delta_event (text_delta "lo")])
            [delta_event (text_delta "Hel")] JNull
            [delta_event (text_delta "lo")]
            eq_refl eq_refl _ eq_refl _ eq_refl).
  - discriminate.
  - simpl. intros value [<-|[]]. reflexivity.
Defined.

Lemma non_streaming_only_on_false_witness :
  events_read (_streamChat sample_new_URL (sample_fetch (answered (message_body done_message)))
                 studio [] (sample_options (JBool false))) = 0%nat.
Proof.
  exact (proj1 (proj2 (non_streaming_only_on_false sample_new_URL
                         (sample_fetch (answered (message_body done_message)))
                         studio [] (sample_options (JBool false))) eq_refl)).
Defined.



Lemma streamComplete_agrees_with_complete_witness :
  text_yielded (_streamComplete sample_new_URL (sample_fetch (streamed hello_events))
                  sample_stripImages studio "Say hello" (sample_options JUndefined))
  = [JStr "Hel"; JStr "lo"; JStr " world"] /\
  _complete sample_new_URL (sample_fetch (streamed hello_events))
    sample_Number_toString studio "Say hello" (sample_options JUndefined)
  = Ok "Hello world".
Proof.
  destruct (streamComplete_agrees_with_complete sample_new_URL
              (sample_fetch (streamed hello_events)) studio
              sample_Number_toString sample_stripImages
              "Say hello" (sample_options JUndefined)
              ["Hel"; "lo"; " world"])
    as (Hyield & _ & _ & Hcomplete).
  - intros s. reflexivity.
  - reflexivity.
  - split; [exact Hyield | exact (Hcomplete eq_refl)].
Defined.
